(** * GILES / ELMO-2 leakage models: bit-interaction primitives, the
    Hamming Weight model and the Power model

    A shallow embedding of [src/Model_Power.hpp] and
    [src/Model_Hamming_Weight.cpp].

    Conventions of the embedding.
    - [std::bitset<32>] is a [Z]; only bit positions 0..31 are ever read
      ([operator[]] is [Z.testbit]) or written.  Converting an unsigned
      integer to a bitset keeps its low 32 bits.
    - [std::size_t] and [std::uint32_t] data are [Z] with the wrap-around
      written out; loop counters and container indices are [nat].
    - [double] and [float] are IEEE-754 binary64 and binary32 values of
      [SpecFloat.spec_float]; [int] is a [Z] in the 32-bit signed range.
    - A C++ exception is the left injection of a sum type. *)

From Stdlib Require Import ZArith QArith List Bool Lia.
From Stdlib Require Import Floats.SpecFloat.
From stdpp Require Import base gmap strings list.

Local Open Scope Z_scope.

(** ** std::bitset<32> *)

Module Bitset32.

Definition t := Z.

(** [std::bitset<32>::size()] *)
Definition size : nat := 32.

(** [std::bitset<32>(unsigned long long)]: the low 32 bits of the value. *)
Definition of_ullong (x : Z) : t := Z.land x (Z.ones 32).

(** [b[i]] read. *)
Definition get (b : t) (i : nat) : bool := Z.testbit b (Z.of_nat i).

(** [b[i] = v] write. *)
Definition set (b : t) (i : nat) (v : bool) : t :=
  if v then Z.setbit b (Z.of_nat i) else Z.clearbit b (Z.of_nat i).

(** The default-constructed bitset: every bit clear. *)
Definition zero : t := 0.

End Bitset32.

(** ** std::size_t arithmetic (64 bits) *)

Definition size_t_add (a b : Z) : Z := (a + b) mod 2 ^ 64.

(** ** Instruction_Terms_Helper *)

(** [calculate_interactions]: the double loop over [term_1 < term_2 < 32];
    a [bool] read from the bitset is promoted to 0 or 1 before the product. *)
Definition calculate_interactions (p_term : Bitset32.t) : Z :=
  fold_left
    (fun result term_1 =>
       fold_left
         (fun result term_2 =>
            size_t_add result
              (Z.b2z (Bitset32.get p_term term_1) * Z.b2z (Bitset32.get p_term term_2)))
         (seq (term_1 + 1) (32 - (term_1 + 1))) result)
    (seq 0 32) 0.

(** ** Specification-side notions for the bit primitives *)

(** Population count of the 32 bit positions. *)
Definition popcount (v : Bitset32.t) : Z :=
  Z.of_nat (length (filter (fun i => Bitset32.get v i = true) (seq 0 32))).

(** All pairs of bit positions [(m, n)] with [m < n] where both bits are set. *)
Definition set_pairs (v : Bitset32.t) : list (nat * nat) :=
  filter (fun mn => (fst mn < snd mn)%nat ∧ Bitset32.get v (fst mn) = true ∧ Bitset32.get v (snd mn) = true)
         (list_prod (seq 0 32) (seq 0 32)).

(** Number of positions of [l] where the bit read by [b] is set. *)
Definition cnt (b : nat -> bool) (l : list nat) : Z :=
  Z.of_nat (length (filter (fun i => b i = true) l)).

(** Sum of a function over a list of positions. *)
Definition sum_over (f : nat -> Z) (l : list nat) : Z :=
  fold_right (fun m acc => f m + acc) 0 l.

(** For position [m]: the number of set positions above it and below [n]
    if [m] is set, and 0 otherwise. *)
Definition partners (b : nat -> bool) (n m : nat) : Z :=
  Z.b2z (b m) * cnt b (seq (m + 1) (n - (m + 1))).

(** [~a] on a [std::uint32_t]: the complement, kept to 32 bits. *)
Definition lnot32 (a : Z) : Z := Z.lnot a mod 2 ^ 32.

(** ** Exceptions *)

Inductive exception : Type :=
| logic_error (what : string)   (* [std::logic_error] *)
| lookup_error                  (* a failed query of the Coefficients table *)
| undefined_behaviour.          (* a conversion the language leaves undefined *)

Definition result (A : Type) : Type := (exception + A)%type.

Definition bind {A B : Type} (c : result A) (k : A -> result B) : result B :=
  match c with
  | inl e => inl e
  | inr a => k a
  end.

#[global] Instance result_ret : MRet result := fun A a => inr a.
#[global] Instance result_bind : MBind result := fun A B k c => bind c k.

(** ** IEEE-754 arithmetic: [double], [float] and [int] *)

Module Fp.

Definition double := spec_float.
Definition float := spec_float.

Definition double_add : double -> double -> double := SFadd 53 1024.
Definition double_mul : double -> double -> double := SFmul 53 1024.

(** Integer to floating point (round to nearest even; exact below 2^53,
    respectively 2^24). *)
Definition double_of_Z (z : Z) : double := binary_normalize 53 1024 z 0 false.
Definition float_of_Z (z : Z) : float := binary_normalize 24 128 z 0 false.

(** [double] to [float]. *)
Definition float_of_double (d : double) : float :=
  match d with
  | S754_finite s m e => binary_round 24 128 s m e
  | _ => d
  end.

Definition INT_MIN : Z := - 2 ^ 31.
Definition INT_MAX : Z := 2 ^ 31 - 1.

(** Discarding the fractional part (truncation toward zero). *)
Definition truncate (d : double) : option Z :=
  match d with
  | S754_zero _ => Some 0
  | S754_finite s m e => Some (cond_Zopp s (Z.shiftl (Z.pos m) e))
  | S754_infinity _ | S754_nan => None
  end.

(** [double] to [int]: the truncated value; undefined when it does not
    fit the destination type. *)
Definition int_of_double (d : double) : result Z :=
  match truncate d with
  | Some z => if bool_decide (INT_MIN <= z <= INT_MAX) then inr z
              else inl undefined_behaviour
  | None => inl undefined_behaviour
  end.

(** The real number a finite floating-point datum denotes, in lowest terms. *)
Definition to_Q (d : spec_float) : option Q :=
  match d with
  | S754_zero _ => Some 0%Q
  | S754_finite s m e => Some (Qred (inject_Z (cond_Zopp s (Z.pos m)) * Qpower 2 e))
  | S754_infinity _ | S754_nan => None
  end.

End Fp.

(** The exact sum of the products of a scalar with every weight. *)
Definition exact_term (scalar : Q) (weights : list Q) : Q :=
  fold_right (fun w acc => (scalar * w + acc)%Q) 0%Q weights.

(** ** The collaborators (declared in headers outside this development)

    [Assembly_Instruction], [Execution] and [Coefficients] are only used
    through the member functions below, which are taken as given. *)

Record Assembly_Instruction : Type := {
  m_opcode : string;
  m_operands : list string
}.

Record Execution : Type := {
  Get_Cycle_Count : nat;
  Is_Normal_State : nat -> string -> bool;
  Get_Instruction : nat -> string -> Assembly_Instruction;
  Get_Operand_Value : nat -> Assembly_Instruction -> nat -> Z
}.

(** [Get_Coefficients opcode term] is the weight vector of the table, or
    [None] where the table has no entry. *)
Record Coefficients : Type := {
  Get_Coefficients : string -> string -> option (list Fp.double)
}.

(** ** class Model (the base class) *)

Module Model.

Record t : Type := {
  m_execution : Execution;
  m_coefficients : Coefficients
}.

(** Modelled from the spec: section 4.2, the opcodes actually present in
    the supplied Execution, read as those of the instructions in the
    observed stage over the cycles of the execution. *)
Definition opcodes_present (e : Execution) : list string :=
  map (fun i => m_opcode (Get_Instruction e i "Execute")) (seq 0 (Get_Cycle_Count e)).

(** Modelled from the spec: section 4.2, the table satisfies a set of
    required terms when every term has calibration data for every opcode
    present in the execution. *)
Definition satisfies (this : t) (required : gset string) : Prop :=
  set_Forall
    (fun term =>
       Forall (fun opcode =>
                 is_Some (Get_Coefficients (m_coefficients this) opcode term))
              (opcodes_present (m_execution this)))
    required.

(** Modelled from the spec: [Model::Check_Interaction_Terms] is declared
    in Model.hpp, whose text this development does not cover.  Section 4.2:
    construction validates that every term name in RequiredTerms() has
    calibration data for the opcodes actually present in the supplied
    Execution. *)
Definition Check_Interaction_Terms (this : t) (Get_Interaction_Terms : gset string) : bool :=
  bool_decide (satisfies this Get_Interaction_Terms).

End Model.

(** ** Model_Hamming_Weight *)

Module Model_Hamming_Weight.

(** The list of interaction terms used by this model:
    [m_required_interaction_terms = {}]. *)
Definition m_required_interaction_terms : gset string := ∅.

(** Modelled from the spec: [hamming_weight] is declared in
    Model_Hamming_Weight.hpp, whose text this development does not cover.
    Section 4.4: the population count of the fixed-width 32-bit numeric
    value of the operand. *)
Definition hamming_weight (value : Z) : Z := popcount (Bitset32.of_ullong value).

(** The body of the loop of [Generate_Traces] at cycle [i]; [push_back]
    appends at the end of the vector, converting its argument to [float]. *)
Definition cycle_body (this : Model.t) (traces : list Fp.float) (i : nat)
  : list Fp.float :=
  let m_execution := Model.m_execution this in
  if negb (Is_Normal_State m_execution i "Execute")
  then traces ++ [Fp.float_of_Z 0]
  else traces ++
         [Fp.float_of_Z
            (hamming_weight
               (Get_Operand_Value m_execution i
                  (Get_Instruction m_execution i "Execute") 1))].

(** The vector after the iterations [0 .. n-1] of the loop. *)
Definition traces_after (this : Model.t) (n : nat) : list Fp.float :=
  fold_left (cycle_body this) (seq 0 n) [].

(** The sample expected at cycle [i]: 0.0 in a stall or flush, otherwise
    the population count of the 32-bit value of the first operand of the
    instruction in the stage. *)
Definition expected_sample (e : Execution) (i : nat) : Fp.float :=
  if Is_Normal_State e i "Execute"
  then Fp.float_of_Z
         (popcount (Bitset32.of_ullong
                      (Get_Operand_Value e i (Get_Instruction e i "Execute") 1)))
  else S754_zero false.

(** [Generate_Traces]: the loop runs while [i < Get_Cycle_Count()]. *)
Definition Generate_Traces (this : Model.t) : list Fp.float :=
  traces_after this (Get_Cycle_Count (Model.m_execution this)).

End Model_Hamming_Weight.

(** ** Loops whose body may throw *)

Fixpoint for_each {A S : Type} (body : S -> A -> result S) (l : list A) (s : S)
  : result S :=
  match l with
  | [] => inr s
  | x :: l' => s' ← body s x; for_each body l' s'
  end.

(** ** Model_Power *)

Module Model_Power.

(** The scalar features a calibration term can weigh. *)
Inductive feature : Type :=
| Operand_1_Self | Operand_2_Self | Bit_Flip_1 | Bit_Flip_2.

Section Model_Power.

(** [m_required_interaction_terms] is a static member whose initialiser is
    in Model_Power.cpp; it is taken as given. *)
Variable m_required_interaction_terms : gset string.

(** The constructor of [Assembly_Instruction_Power] has no mem-initialiser
    for [Operand_1] and [Operand_2]: the two members keep whatever their
    storage holds. *)
Variables indeterminate_1 indeterminate_2 : Z.

(** [struct Assembly_Instruction_Power : Assembly_Instruction, ...] *)
Record Assembly_Instruction_Power : Type := {
  instruction : Assembly_Instruction;
  Operand_1 : Z;
  Operand_2 : Z;
  Operand_1_Bit_Interactions : Z;
  Operand_2_Bit_Interactions : Z
}.

(** The constructor; [p_operand_1] and [p_operand_2] are [std::size_t] and
    are converted to [std::bitset<32>] at the calls of
    [calculate_interactions]. *)
Definition Assembly_Instruction_Power_ctor
    (p_instruction : Assembly_Instruction) (p_operand_1 p_operand_2 : Z)
  : Assembly_Instruction_Power :=
  {| instruction := p_instruction;
     Operand_1 := indeterminate_1;
     Operand_2 := indeterminate_2;
     Operand_1_Bit_Interactions :=
       calculate_interactions (Bitset32.of_ullong p_operand_1);
     Operand_2_Bit_Interactions :=
       calculate_interactions (Bitset32.of_ullong p_operand_2) |}.

(** [calculate_bitflips]: [result[i] = a[i] != b[i]] for every position of
    a default-constructed bitset. *)
Definition calculate_bitflips
    (p_instruction_1_operand p_instruction_2_operand : Bitset32.t) : Bitset32.t :=
  fold_left
    (fun result i =>
       Bitset32.set result i
         (negb (Bool.eqb (Bitset32.get p_instruction_1_operand i)
                         (Bitset32.get p_instruction_2_operand i))))
    (seq 0 Bitset32.size) Bitset32.zero.

(** [struct Instruction_Terms_Interactions] *)
Record Instruction_Terms_Interactions : Type := {
  Operand_1_Bit_Flip : Bitset32.t;
  Operand_2_Bit_Flip : Bitset32.t;
  Bit_Flip1_Bit_Interactions : Z;
  Bit_Flip2_Bit_Interactions : Z
}.

(** The constructor: the members are initialised in declaration order, the
    [std::uint32_t] operands being converted to bitsets. *)
Definition Instruction_Terms_Interactions_ctor
    (p_instruction_1 p_instruction_2 : Assembly_Instruction_Power)
  : Instruction_Terms_Interactions :=
  let Operand_1_Bit_Flip :=
    calculate_bitflips (Bitset32.of_ullong (Operand_1 p_instruction_1))
                       (Bitset32.of_ullong (Operand_2 p_instruction_2)) in
  let Operand_2_Bit_Flip :=
    calculate_bitflips (Bitset32.of_ullong (Operand_1 p_instruction_1))
                       (Bitset32.of_ullong (Operand_2 p_instruction_2)) in
  {| Operand_1_Bit_Flip := Operand_1_Bit_Flip;
     Operand_2_Bit_Flip := Operand_2_Bit_Flip;
     Bit_Flip1_Bit_Interactions := calculate_interactions Operand_1_Bit_Flip;
     Bit_Flip2_Bit_Interactions := calculate_interactions Operand_2_Bit_Flip |}.

(** [Get_Interaction_Terms] *)
Definition Get_Interaction_Terms (this : Model.t) : gset string :=
  m_required_interaction_terms.

(** [get_instruction_terms] *)
Definition get_instruction_terms (this : Model.t) (p_cycle : nat)
  : Assembly_Instruction_Power :=
  let m_execution := Model.m_execution this in
  if negb (Is_Normal_State m_execution p_cycle "Execute")
  then Assembly_Instruction_Power_ctor
         (Get_Instruction m_execution p_cycle "Execute") 0 0
  else
    let instruction := Get_Instruction m_execution p_cycle "Execute" in
    Assembly_Instruction_Power_ctor
      (Get_Instruction m_execution p_cycle "Execute")
      (Get_Operand_Value m_execution p_cycle instruction 1 mod 2 ^ 64)
      (Get_Operand_Value m_execution p_cycle instruction 2 mod 2 ^ 64).

(** [calculate_term]: [auto total = 0] declares an [int]; every
    [total += p_instruction_term * bit] adds in [double] and converts the
    sum back to [int]; the final [int] is returned as a [double]. *)
Definition calculate_term (this : Model.t) (p_opcode p_term_name : string)
    (p_instruction_term : Fp.double) : result Fp.double :=
  match Get_Coefficients (Model.m_coefficients this) p_opcode p_term_name with
  | None => inl lookup_error
  | Some coefficients =>
      total ← for_each
                (fun total bit =>
                   Fp.int_of_double
                     (Fp.double_add (Fp.double_of_Z total)
                                    (Fp.double_mul p_instruction_term bit)))
                coefficients 0;
      inr (Fp.double_of_Z total)
  end.

(** The constructor [Model_Power(p_execution, p_coefficients)]: the base
    sub-object is built first, then the interaction terms are checked. *)
Definition Model_Power_ctor (p_execution : Execution) (p_coefficients : Coefficients)
  : result Model.t :=
  let this := {| Model.m_execution := p_execution;
                 Model.m_coefficients := p_coefficients |} in
  if negb (Model.Check_Interaction_Terms this (Get_Interaction_Terms this))
  then inl (logic_error
              "Model was not provided with correct interaction terms by the Coefficients file.")
  else inr this.

(** *** Trace generation

    [Generate_Traces] is declared [const std::vector<float> Generate_Traces()
    const override]; its body is in Model_Power.cpp.  The private members
    above, [get_instruction_terms], [Instruction_Terms_Interactions] and
    [calculate_term], have no caller but that body: its steps are their
    calls. *)

(** Which scalar feature a term name of the calibration data weighs. *)
Variable term_feature : string -> feature.

(** Modelled from the spec: the body of [Model_Power::Generate_Traces] is
    in Model_Power.cpp, whose text this development does not cover.
    Section 4.5, step 3: the cross-cycle terms exist when a previous bundle
    exists; they are the [Instruction_Terms_Interactions] of the current
    and the previous bundle. *)
Definition cross_cycle
    (current : Assembly_Instruction_Power)
    (previous : option Assembly_Instruction_Power)
  : option Instruction_Terms_Interactions :=
  match previous with
  | Some p => Some (Instruction_Terms_Interactions_ctor current p)
  | None => None
  end.

(** Modelled from the spec: section 4.5, steps 2 and 3, the scalar value of
    a term: a self-interaction scalar of the bundle of the cycle, or a
    bit-flip interaction scalar of the cross-cycle terms, 0 when there is
    no previous bundle. *)
Definition scalar_of (f : feature) (current : Assembly_Instruction_Power)
    (flips : option Instruction_Terms_Interactions) : Z :=
  match f with
  | Operand_1_Self => Operand_1_Bit_Interactions current
  | Operand_2_Self => Operand_2_Bit_Interactions current
  | Bit_Flip_1 =>
      match flips with Some t => Bit_Flip1_Bit_Interactions t | None => 0 end
  | Bit_Flip_2 =>
      match flips with Some t => Bit_Flip2_Bit_Interactions t | None => 0 end
  end.

(** Modelled from the spec: section 4.5, steps 4 and 5: the sample is the
    sum, over the required terms, of the contribution [calculate_term]
    computes for the opcode of the bundle and the scalar of the term. *)
Definition sample (this : Model.t) (current : Assembly_Instruction_Power)
    (flips : option Instruction_Terms_Interactions) : result Fp.double :=
  for_each
    (fun sum term =>
       x ← calculate_term this (m_opcode (instruction current)) term
             (Fp.double_of_Z (scalar_of (term_feature term) current flips));
       inr (Fp.double_add sum x))
    (elements m_required_interaction_terms) (Fp.double_of_Z 0).

(** Modelled from the spec: section 4.5, one cycle of the per-cycle
    algorithm on the pair of the trace so far and the carried previous
    bundle.  The bundle of the cycle is the one [get_instruction_terms]
    returns; a stall/flush cycle appends 0.0 and leaves the carried bundle
    alone; a normal cycle appends its sample and carries its bundle. *)
Definition cycle_body (this : Model.t)
    (state : list Fp.float * option Assembly_Instruction_Power) (i : nat)
  : result (list Fp.float * option Assembly_Instruction_Power) :=
  let '(traces, previous) := state in
  let current := get_instruction_terms this i in
  if negb (Is_Normal_State (Model.m_execution this) i "Execute")
  then inr (traces ++ [Fp.float_of_Z 0], previous)
  else
    x ← sample this current (cross_cycle current previous);
    inr (traces ++ [Fp.float_of_double x], Some current).

(** Modelled from the spec: section 4.5, the trace after the cycles
    [0 .. n-1] of the per-cycle algorithm, started without a carried
    bundle. *)
Definition traces_after (this : Model.t) (n : nat) : result (list Fp.float) :=
  state ← for_each (cycle_body this) (seq 0 n) ([], None);
  inr (fst state).

(** Modelled from the spec: section 4.5, [Generate_Traces] runs the
    per-cycle algorithm over the cycles [0 .. N-1] of the execution. *)
Definition Generate_Traces (this : Model.t) : result (list Fp.float) :=
  traces_after this (Get_Cycle_Count (Model.m_execution this)).

(** The table is well calibrated for an execution when, for the opcode of
    every normal cycle and every required term, [calculate_term] returns a
    value for each scalar an interaction count can take (0 to 496). *)
Definition well_calibrated (this : Model.t) (required : gset string) : Prop :=
  forall i : nat,
    (i < Get_Cycle_Count (Model.m_execution this))%nat ->
    Is_Normal_State (Model.m_execution this) i "Execute" = true ->
    forall term : string,
      term ∈ required ->
      forall scalar : Z,
        0 <= scalar <= 496 ->
        exists x : Fp.double,
          calculate_term this
            (m_opcode (Get_Instruction (Model.m_execution this) i "Execute")) term
            (Fp.double_of_Z scalar)
          = inr x.

End Model_Power.

End Model_Power.

(** ** The registered models

    Each model registers itself in the factory; a call of the virtual
    [Generate_Traces] runs the body of the model's own class. *)

Inductive registered_model : Type := Hamming_Weight | Power.

Section Registry.

Variable m_required_interaction_terms : gset string.
Variables indeterminate_1 indeterminate_2 : Z.
Variable term_feature : string -> Model_Power.feature.

Definition traces_after (k : registered_model) (this : Model.t) (n : nat)
  : result (list Fp.float) :=
  match k with
  | Hamming_Weight => inr (Model_Hamming_Weight.traces_after this n)
  | Power =>
      Model_Power.traces_after m_required_interaction_terms
        indeterminate_1 indeterminate_2 term_feature this n
  end.

Definition Generate_Traces (k : registered_model) (this : Model.t)
  : result (list Fp.float) :=
  match k with
  | Hamming_Weight => inr (Model_Hamming_Weight.Generate_Traces this)
  | Power =>
      Model_Power.Generate_Traces m_required_interaction_terms
        indeterminate_1 indeterminate_2 term_feature this
  end.

End Registry.

(** ** A worked execution

    Three cycles: the stage is stalled at cycle 0, then executes
    [ADD 5, 2] and [ADD 5, 3]; the table holds a vector of 32 ones for
    every term of [ADD]. *)

Module Worked.

Definition ADD (a b : string) : Assembly_Instruction :=
  {| m_opcode := "ADD"; m_operands := [a; b] |}.

(** Immediates are taken literally. *)
Definition immediate (token : string) : Z :=
  if bool_decide (token = "5") then 5
  else if bool_decide (token = "3") then 3
  else if bool_decide (token = "2") then 2
  else 0.

Definition execution : Execution :=
  {| Get_Cycle_Count := 3;
     Is_Normal_State := fun i _ => negb (Nat.eqb i 0);
     Get_Instruction := fun i _ => if Nat.ltb i 2 then ADD "5" "2" else ADD "5" "3";
     Get_Operand_Value := fun _ instruction k =>
       immediate (nth (k - 1) (m_operands instruction) EmptyString) |}.

Definition ones : Coefficients :=
  {| Get_Coefficients := fun opcode _ =>
       if bool_decide (opcode = "ADD")
       then Some (replicate 32 (Fp.double_of_Z 1)) else None |}.

(** A table whose 32 weights are all 0.5. *)
Definition halves : Coefficients :=
  {| Get_Coefficients := fun _ _ =>
       Some (replicate 32 (binary_normalize 53 1024 1 (-1) false)) |}.

(** A table without any entry. *)
Definition empty : Coefficients := {| Get_Coefficients := fun _ _ => None |}.

Definition model (c : Coefficients) : Model.t :=
  {| Model.m_execution := execution; Model.m_coefficients := c |}.

Definition required : gset string :=
  {[ "Operand1"; "Operand2"; "BitFlip1"; "BitFlip2" ]}.

Definition term_feature (term : string) : Model_Power.feature :=
  if bool_decide (term = "Operand1") then Model_Power.Operand_1_Self
  else if bool_decide (term = "Operand2") then Model_Power.Operand_2_Self
  else if bool_decide (term = "BitFlip1") then Model_Power.Bit_Flip_1
  else Model_Power.Bit_Flip_2.

(** Two bundles as the cross-cycle constructor receives them: operands
    (5, 2) and (5, 3). *)
Definition bundle (operand_1 operand_2 : Z) : Model_Power.Assembly_Instruction_Power :=
  {| Model_Power.instruction := ADD "5" "2";
     Model_Power.Operand_1 := operand_1;
     Model_Power.Operand_2 := operand_2;
     Model_Power.Operand_1_Bit_Interactions :=
       calculate_interactions (Bitset32.of_ullong operand_1);
     Model_Power.Operand_2_Bit_Interactions :=
       calculate_interactions (Bitset32.of_ullong operand_2) |}.

(** An execution of three cycles whose Execute stage is never in a normal
    state. *)
Definition stalled : Execution :=
  {| Get_Cycle_Count := 3;
     Is_Normal_State := fun _ _ => false;
     Get_Instruction := fun _ _ => ADD "5" "2";
     Get_Operand_Value := fun _ instruction k =>
       immediate (nth (k - 1) (m_operands instruction) EmptyString) |}.

(** The execution with another instruction in the stalled stage and other
    second operands. *)
Definition variant : Execution :=
  {| Get_Cycle_Count := 3;
     Is_Normal_State := fun i _ => negb (Nat.eqb i 0);
     Get_Instruction := fun i _ => if Nat.eqb i 0 then ADD "3" "3" else ADD "5" "5";
     Get_Operand_Value := fun _ instruction k =>
       immediate (nth (k - 1) (m_operands instruction) EmptyString) |}.

End Worked.

(** * Theorems *)

(** ** Counting set bits and pairs of set bits *)

Section Counting.

Variable b : nat -> bool.

Lemma cnt_nil : cnt b [] = 0.
Proof. reflexivity. Qed.

Lemma cnt_cons i l : cnt b (i :: l) = Z.b2z (b i) + cnt b l.
Proof.
  unfold cnt. rewrite filter_cons.
  destruct (b i) eqn:Hb; case_decide; try congruence; cbn [length Z.b2z]; lia.
Qed.

Lemma cnt_bounds l : 0 <= cnt b l <= Z.of_nat (length l).
Proof.
  induction l as [|i l IH]; [rewrite cnt_nil; simpl; lia|].
  rewrite cnt_cons. cbn [length]. destruct (b i); cbn [Z.b2z]; lia.
Qed.

Lemma b2z_bounds (x : bool) : 0 <= Z.b2z x <= 1.
Proof. destruct x; simpl; lia. Qed.

(** The inner loop adds, without wrapping, the count of the set positions
    it visits when bit [term_1] is set, and nothing otherwise. *)
Lemma inner_loop (c : bool) (l : list nat) (r : Z) :
  0 <= r -> r + Z.of_nat (length l) < 2 ^ 64 ->
  fold_left (fun result term_2 => size_t_add result (Z.b2z c * Z.b2z (b term_2))) l r
  = r + Z.b2z c * cnt b l.
Proof.
  revert r. induction l as [|i l IH]; intros r Hr Hlen.
  - rewrite cnt_nil. simpl. lia.
  - cbn [fold_left length] in *. rewrite cnt_cons.
    pose proof (b2z_bounds c). pose proof (b2z_bounds (b i)).
    assert (Hstep : size_t_add r (Z.b2z c * Z.b2z (b i)) = r + Z.b2z c * Z.b2z (b i)).
    { unfold size_t_add. apply Z.mod_small. nia. }
    rewrite Hstep. rewrite IH by nia. lia.
Qed.

(** The outer loop from position [a] up to [n] adds the partners of every
    position it visits. *)
Lemma outer_loop (n len a : nat) (r : Z) :
  (a + len = n)%nat -> 0 <= r -> r + Z.of_nat len * Z.of_nat n < 2 ^ 64 ->
  fold_left
    (fun result term_1 =>
       fold_left
         (fun result term_2 => size_t_add result (Z.b2z (b term_1) * Z.b2z (b term_2)))
         (seq (term_1 + 1) (n - (term_1 + 1))) result)
    (seq a len) r
  = r + sum_over (partners b n) (seq a len)
  /\ 0 <= sum_over (partners b n) (seq a len) <= Z.of_nat len * Z.of_nat n.
Proof.
  revert a r. induction len as [|len IH]; intros a r Han Hr Hbound.
  - simpl. lia.
  - cbn [seq fold_left sum_over fold_right].
    assert (Hp : 0 <= partners b n a <= Z.of_nat n).
    { unfold partners. pose proof (cnt_bounds (seq (a + 1) (n - (a + 1)))).
      rewrite length_seq in H. pose proof (b2z_bounds (b a)). nia. }
    rewrite inner_loop; [|lia|rewrite length_seq; nia].
    fold (partners b n a).
    destruct (IH (S a) (r + partners b n a)) as [IH1 IH2]; [lia|lia|nia|].
    rewrite IH1. fold (sum_over (partners b n) (seq (S a) len)). split; [lia|nia].
Qed.

(** Twice the number of pairs among [k] set positions is [k (k - 1)]. *)
Lemma sum_partners_choose2 (n len a : nat) :
  (a + len = n)%nat ->
  2 * sum_over (partners b n) (seq a len) = cnt b (seq a len) * (cnt b (seq a len) - 1).
Proof.
  revert a. induction len as [|len IH]; intros a Han.
  - reflexivity.
  - cbn [seq sum_over fold_right]. fold (sum_over (partners b n) (seq (S a) len)).
    rewrite cnt_cons. specialize (IH (S a) ltac:(lia)).
    unfold partners at 1. replace (n - (a + 1))%nat with len by lia.
    replace (a + 1)%nat with (S a) by lia.
    destruct (b a); cbn [Z.b2z]; nia.
Qed.

(** A row of the table of pairs: the pairs [(m, x)] with [x] in [l]. *)
Lemma pairs_row (m : nat) (l : list nat) :
  length (filter (fun mn : nat * nat =>
                    (fst mn < snd mn)%nat ∧ b (fst mn) = true ∧ b (snd mn) = true)
                 (map (pair m) l))
  = length (filter (fun x => (m < x)%nat ∧ b m = true ∧ b x = true) l).
Proof.
  induction l as [|x l IH]; [reflexivity|].
  cbn [map]. rewrite !filter_cons. cbn [fst snd].
  repeat case_decide; cbn [length]; rewrite ?IH; tauto.
Qed.

Lemma row_below (m : nat) (l : list nat) :
  Forall (fun x => (x <= m)%nat) l ->
  length (filter (fun x => (m < x)%nat ∧ b m = true ∧ b x = true) l) = 0%nat.
Proof.
  induction 1 as [|x l Hx _ IH]; [reflexivity|].
  rewrite filter_cons_False by (intros [? _]; lia). exact IH.
Qed.

Lemma row_above (m : nat) (l : list nat) :
  Forall (fun x => (m < x)%nat) l ->
  Z.of_nat (length (filter (fun x => (m < x)%nat ∧ b m = true ∧ b x = true) l))
  = Z.b2z (b m) * cnt b l.
Proof.
  induction 1 as [|x l Hx _ IH]; [rewrite cnt_nil; simpl; lia|].
  rewrite cnt_cons.
  destruct (b m) eqn:Hm, (b x) eqn:Hx'; cbn [Z.b2z] in *.
  - rewrite filter_cons_True by done. cbn [length]. lia.
  - rewrite filter_cons_False by (intros (_ & _ & ?); congruence). lia.
  - rewrite filter_cons_False by (intros (_ & ? & _); congruence). lia.
  - rewrite filter_cons_False by (intros (_ & ? & _); congruence). lia.
Qed.

Lemma row_count (n m : nat) :
  (m < n)%nat ->
  Z.of_nat (length (filter (fun x => (m < x)%nat ∧ b m = true ∧ b x = true) (seq 0 n)))
  = partners b n m.
Proof.
  intros Hm. replace n with ((m + 1) + (n - (m + 1)))%nat at 1 by lia.
  rewrite seq_app, filter_app, length_app, Nat2Z.inj_add.
  rewrite row_below, row_above; [reflexivity| |].
  - apply Forall_forall. intros x Hx%list_elem_of_In%in_seq. lia.
  - apply Forall_forall. intros x Hx%list_elem_of_In%in_seq. lia.
Qed.

(** The table of pairs over the rows [l]: one row per position of [l]. *)
Lemma pairs_table (n : nat) (l : list nat) :
  Forall (fun m => (m < n)%nat) l ->
  Z.of_nat (length (filter (fun mn : nat * nat =>
                    (fst mn < snd mn)%nat ∧ b (fst mn) = true ∧ b (snd mn) = true)
                 (list_prod l (seq 0 n))))
  = sum_over (partners b n) l.
Proof.
  induction 1 as [|m l Hm _ IH]; [reflexivity|].
  cbn [list_prod sum_over fold_right]. fold (sum_over (partners b n) l).
  rewrite filter_app, length_app, Nat2Z.inj_add, pairs_row, row_count, IH by exact Hm.
  reflexivity.
Qed.

End Counting.

(** ** calculate_interactions *)

(** The loops of [calculate_interactions] never wrap and return the sum,
    over the positions, of the partners of each position. *)
Lemma calculate_interactions_sum (v : Bitset32.t) :
  calculate_interactions v = sum_over (partners (Bitset32.get v) 32) (seq 0 32).
Proof.
  unfold calculate_interactions.
  destruct (outer_loop (Bitset32.get v) 32 32 0 0) as [H _]; [reflexivity|lia|lia|].
  exact H.
Qed.

Lemma calculate_interactions_choose2 (v : Bitset32.t) :
  2 * calculate_interactions v = popcount v * (popcount v - 1).
Proof.
  rewrite calculate_interactions_sum.
  exact (sum_partners_choose2 (Bitset32.get v) 32 32 0 eq_refl).
Qed.

Lemma popcount_bounds (v : Bitset32.t) : 0 <= popcount v <= 32.
Proof. exact (cnt_bounds (Bitset32.get v) (seq 0 32)). Qed.

(** C3. For every 32-bit word [v], [calculate_interactions v] is the number
    of pairs of bit positions [(m, n)], [m < n], with both bits of [v] set,
    which is [k (k - 1) / 2] for [k] the population count of [v]; so it is
    0 for [k = 0], 3 for [k = 3] and 496 for [k = 32]. *)
Theorem calculate_interactions_pairs (v : Bitset32.t) :
  calculate_interactions v = Z.of_nat (length (set_pairs v))
  /\ calculate_interactions v = popcount v * (popcount v - 1) / 2
  /\ (popcount v = 0 -> calculate_interactions v = 0)
  /\ (popcount v = 3 -> calculate_interactions v = 3)
  /\ (popcount v = 32 -> calculate_interactions v = 496).
Proof.
  pose proof (calculate_interactions_choose2 v) as H2.
  assert (Hhalf : calculate_interactions v = popcount v * (popcount v - 1) / 2).
  { rewrite <- H2. rewrite Z.mul_comm. symmetry. apply Z.div_mul. lia. }
  split; [|split; [exact Hhalf|]].
  - rewrite calculate_interactions_sum. unfold set_pairs.
    symmetry. apply pairs_table.
    apply Forall_forall. intros m Hm%list_elem_of_In%in_seq. lia.
  - repeat split; intros Hk; rewrite Hhalf, Hk; reflexivity.
Qed.

Lemma calculate_interactions_pairs_witness :
  popcount 7 = 3 /\ calculate_interactions 7 = 3.
Proof.
  assert (H : popcount 7 = 3) by (vm_compute; reflexivity).
  split; [exact H|].
  exact (proj1 (proj2 (proj2 (proj2 (calculate_interactions_pairs 7)))) H).
Defined.

(** ** calculate_bitflips *)

Lemma set_testbit (r : Bitset32.t) (i : nat) (v : bool) (j : Z) :
  0 <= j ->
  Z.testbit (Bitset32.set r i v) j = if Z.of_nat i =? j then v else Z.testbit r j.
Proof.
  intros Hj. unfold Bitset32.set. destruct v.
  - rewrite Z.setbit_eqb by lia. destruct (Z.of_nat i =? j); reflexivity.
  - rewrite Z.clearbit_eqb. destruct (Z.of_nat i =? j); simpl; [apply andb_false_r|apply andb_true_r].
Qed.

(** After the positions [0 .. k-1] the result holds the differences of
    these positions and is still clear everywhere else. *)
Lemma bitflips_prefix (a b : Bitset32.t) (k : nat) (j : Z) :
  0 <= j ->
  Z.testbit
    (fold_left
       (fun result i =>
          Bitset32.set result i
            (negb (Bool.eqb (Bitset32.get a i) (Bitset32.get b i))))
       (seq 0 k) Bitset32.zero) j
  = if j <? Z.of_nat k then xorb (Z.testbit a j) (Z.testbit b j) else false.
Proof.
  intros Hj. induction k as [|k IH].
  - cbn [seq fold_left]. unfold Bitset32.zero. rewrite Z.testbit_0_l.
    destruct (Z.ltb_spec j (Z.of_nat 0)); [lia|reflexivity].
  - rewrite seq_S, fold_left_app. cbn [fold_left Nat.add].
    rewrite set_testbit by exact Hj. rewrite IH. unfold Bitset32.get.
    destruct (Z.of_nat k =? j) eqn:Ek.
    + apply Z.eqb_eq in Ek. subst j.
      destruct (Z.ltb_spec (Z.of_nat k) (Z.of_nat (S k))); [|lia].
      destruct (Z.testbit a (Z.of_nat k)), (Z.testbit b (Z.of_nat k)); reflexivity.
    + apply Z.eqb_neq in Ek.
      destruct (Z.ltb_spec j (Z.of_nat k)), (Z.ltb_spec j (Z.of_nat (S k)));
        try reflexivity; lia.
Qed.

Lemma calculate_bitflips_testbit (a b : Bitset32.t) (j : Z) :
  0 <= j ->
  Z.testbit (Model_Power.calculate_bitflips a b) j
  = if j <? 32 then xorb (Z.testbit a j) (Z.testbit b j) else false.
Proof. intros Hj. exact (bitflips_prefix a b 32 j Hj). Qed.

Lemma word32_testbit_high (a j : Z) : 0 <= a < 2 ^ 32 -> 32 <= j -> Z.testbit a j = false.
Proof.
  intros Ha Hj. rewrite <- (Z.mod_small a (2 ^ 32)) by exact Ha.
  apply Z.mod_pow2_bits_high. lia.
Qed.

Lemma lnot32_range (a : Z) : 0 <= lnot32 a < 2 ^ 32.
Proof. unfold lnot32. apply Z.mod_pos_bound. lia. Qed.

Lemma calculate_bitflips_lxor (a b : Bitset32.t) :
  0 <= a < 2 ^ 32 -> 0 <= b < 2 ^ 32 ->
  Model_Power.calculate_bitflips a b = Z.lxor a b.
Proof.
  intros Ha Hb. apply Z.bits_inj'. intros j Hj.
  rewrite calculate_bitflips_testbit, Z.lxor_spec by exact Hj.
  destruct (Z.ltb_spec j 32); [reflexivity|].
  rewrite !word32_testbit_high by (assumption || lia). reflexivity.
Qed.

(** C8. [calculate_bitflips] is the bitwise XOR of two 32-bit words: bit
    [i] of the result is set exactly when the words differ at position [i];
    hence the flips of a word against itself are 0, and against its
    complement 0xFFFFFFFF, whose pairwise interaction count is 496. *)
Theorem calculate_bitflips_xor (a b : Bitset32.t) :
  0 <= a < 2 ^ 32 -> 0 <= b < 2 ^ 32 ->
  Model_Power.calculate_bitflips a b = Z.lxor a b
  /\ (forall i : nat, (i < 32)%nat ->
        Bitset32.get (Model_Power.calculate_bitflips a b) i = true
        <-> Bitset32.get a i <> Bitset32.get b i)
  /\ Model_Power.calculate_bitflips a a = 0
  /\ Model_Power.calculate_bitflips a (lnot32 a) = 4294967295
  /\ calculate_interactions (Model_Power.calculate_bitflips a (lnot32 a)) = 496.
Proof.
  intros Ha Hb.
  assert (Hnot : Model_Power.calculate_bitflips a (lnot32 a) = 4294967295).
  { apply Z.bits_inj'. intros j Hj.
    rewrite calculate_bitflips_testbit by exact Hj.
    change 4294967295 with (Z.ones 32).
    destruct (Z.ltb_spec j 32).
    - rewrite Z.ones_spec_low by lia. unfold lnot32.
      rewrite Z.mod_pow2_bits_low, Z.lnot_spec by lia.
      destruct (Z.testbit a j); reflexivity.
    - rewrite Z.ones_spec_high by lia. reflexivity. }
  split; [exact (calculate_bitflips_lxor a b Ha Hb)|].
  split; [|split; [|split; [exact Hnot|]]].
  - intros i Hi. unfold Bitset32.get.
    rewrite calculate_bitflips_testbit by lia.
    destruct (Z.ltb_spec (Z.of_nat i) 32); [|lia].
    destruct (Z.testbit a (Z.of_nat i)), (Z.testbit b (Z.of_nat i)); simpl;
      split; congruence.
  - rewrite calculate_bitflips_lxor by assumption. apply Z.lxor_nilpotent.
  - rewrite Hnot. vm_compute. reflexivity.
Qed.

Lemma calculate_bitflips_xor_witness :
  Model_Power.calculate_bitflips 5 3 = Z.lxor 5 3
  /\ (forall i : nat, (i < 32)%nat ->
        Bitset32.get (Model_Power.calculate_bitflips 5 3) i = true
        <-> Bitset32.get 5 i <> Bitset32.get 3 i)
  /\ Model_Power.calculate_bitflips 5 5 = 0
  /\ Model_Power.calculate_bitflips 5 (lnot32 5) = 4294967295
  /\ calculate_interactions (Model_Power.calculate_bitflips 5 (lnot32 5)) = 496.
Proof. apply (calculate_bitflips_xor 5 3); lia. Defined.

(** ** Instruction_Terms_Interactions *)

(** What the constructor stores: both vectors are the flips between
    operand 1 of its first argument and operand 2 of its second. *)
Lemma Instruction_Terms_Interactions_stored
    (p_instruction_1 p_instruction_2 : Model_Power.Assembly_Instruction_Power) :
  let stored :=
    Model_Power.Instruction_Terms_Interactions_ctor p_instruction_1 p_instruction_2 in
  let flips :=
    Model_Power.calculate_bitflips
      (Bitset32.of_ullong (Model_Power.Operand_1 p_instruction_1))
      (Bitset32.of_ullong (Model_Power.Operand_2 p_instruction_2)) in
  Model_Power.Operand_1_Bit_Flip stored = flips
  /\ Model_Power.Operand_2_Bit_Flip stored = flips.
Proof. split; reflexivity. Qed.

(** C1. On the bundles with operands (5, 3) and (5, 2), in either order,
    the constructor stores for both operands the flips of operand 1 of one
    bundle against operand 2 of the other (5 xor 2 = 7, respectively
    5 xor 3 = 6), where operand 1 against operand 1 is 0 and operand 2
    against operand 2 is 1. *)
Theorem bit_flips_cross_operands :
  let current := Worked.bundle 5 3 in
  let previous := Worked.bundle 5 2 in
  let stored := Model_Power.Instruction_Terms_Interactions_ctor current previous in
  let stored' := Model_Power.Instruction_Terms_Interactions_ctor previous current in
  Model_Power.Operand_1_Bit_Flip stored = 7
  /\ Model_Power.Operand_2_Bit_Flip stored = 7
  /\ Model_Power.Operand_1_Bit_Flip stored' = 6
  /\ Model_Power.Operand_2_Bit_Flip stored' = 6
  /\ Z.lxor (Model_Power.Operand_1 current) (Model_Power.Operand_1 previous) = 0
  /\ Z.lxor (Model_Power.Operand_2 current) (Model_Power.Operand_2 previous) = 1.
Proof. vm_compute. repeat split; reflexivity. Qed.

(** C10. For every pair of bundles given to the constructor, the two
    stored bit-flip vectors are equal, and so are the two bit-flip
    interaction scalars: both vectors are computed from the same pair of
    arguments. *)
Theorem bit_flips_equal
    (p_instruction_1 p_instruction_2 : Model_Power.Assembly_Instruction_Power) :
  let stored :=
    Model_Power.Instruction_Terms_Interactions_ctor p_instruction_1 p_instruction_2 in
  Model_Power.Operand_1_Bit_Flip stored = Model_Power.Operand_2_Bit_Flip stored
  /\ Model_Power.Bit_Flip1_Bit_Interactions stored
     = Model_Power.Bit_Flip2_Bit_Interactions stored.
Proof.
  intros stored.
  destruct (Instruction_Terms_Interactions_stored p_instruction_1 p_instruction_2)
    as [H1 H2].
  fold stored in H1, H2. split.
  - rewrite H1, H2. reflexivity.
  - unfold stored, Model_Power.Instruction_Terms_Interactions_ctor.
    cbn [Model_Power.Bit_Flip1_Bit_Interactions Model_Power.Bit_Flip2_Bit_Interactions].
    reflexivity.
Qed.

(** ** get_instruction_terms *)

Lemma calculate_interactions_zero : calculate_interactions (Bitset32.of_ullong 0) = 0.
Proof. vm_compute. reflexivity. Qed.

(** C7. At a cycle where the Execute stage is not in a normal state, the
    bundle is constructed from the instruction in the stage with both
    operand values 0, and both of its self-interaction scalars are 0. *)
Theorem get_instruction_terms_stall
    (indeterminate_1 indeterminate_2 : Z) (this : Model.t) (p_cycle : nat) :
  Is_Normal_State (Model.m_execution this) p_cycle "Execute" = false ->
  let terms :=
    Model_Power.get_instruction_terms indeterminate_1 indeterminate_2 this p_cycle in
  terms = Model_Power.Assembly_Instruction_Power_ctor indeterminate_1 indeterminate_2
            (Get_Instruction (Model.m_execution this) p_cycle "Execute") 0 0
  /\ Model_Power.Operand_1_Bit_Interactions terms = 0
  /\ Model_Power.Operand_2_Bit_Interactions terms = 0.
Proof.
  intros Hstall terms. subst terms. unfold Model_Power.get_instruction_terms.
  rewrite Hstall. cbn [negb]. split; [reflexivity|].
  cbn [Model_Power.Assembly_Instruction_Power_ctor
         Model_Power.Operand_1_Bit_Interactions
         Model_Power.Operand_2_Bit_Interactions].
  split; exact calculate_interactions_zero.
Qed.

Lemma get_instruction_terms_stall_witness :
  let terms := Model_Power.get_instruction_terms 7 9 (Worked.model Worked.ones) 0 in
  terms = Model_Power.Assembly_Instruction_Power_ctor 7 9
            (Get_Instruction Worked.execution 0%nat "Execute") 0 0
  /\ Model_Power.Operand_1_Bit_Interactions terms = 0
  /\ Model_Power.Operand_2_Bit_Interactions terms = 0.
Proof.
  apply (get_instruction_terms_stall 7 9 (Worked.model Worked.ones) 0).
  reflexivity.
Defined.

(** The members [Operand_1] and [Operand_2] of the bundle are not set by
    the constructor, whatever the operand values it is given. *)
Remark get_instruction_terms_operands
    (indeterminate_1 indeterminate_2 : Z) (this : Model.t) (p_cycle : nat) :
  let terms :=
    Model_Power.get_instruction_terms indeterminate_1 indeterminate_2 this p_cycle in
  Model_Power.Operand_1 terms = indeterminate_1
  /\ Model_Power.Operand_2 terms = indeterminate_2.
Proof.
  unfold Model_Power.get_instruction_terms.
  destruct (negb _); split; reflexivity.
Qed.

(** ** Required interaction terms and construction *)

(** C9. The Hamming Weight model requires no interaction term, and the
    trace it generates does not depend on the Coefficients. *)
Theorem hamming_weight_requires_nothing :
  Model_Hamming_Weight.m_required_interaction_terms = ∅
  /\ elements Model_Hamming_Weight.m_required_interaction_terms = []
  /\ forall (e : Execution) (c1 c2 : Coefficients),
       Model_Hamming_Weight.Generate_Traces
         {| Model.m_execution := e; Model.m_coefficients := c1 |}
       = Model_Hamming_Weight.Generate_Traces
           {| Model.m_execution := e; Model.m_coefficients := c2 |}.
Proof.
  split; [reflexivity|]. split; [apply elements_empty|].
  intros e c1 c2. reflexivity.
Qed.

Lemma not_satisfies_missing (this : Model.t) (required : gset string) :
  ~ Model.satisfies this required
  <-> exists term opcode : string,
        term ∈ required
        /\ opcode ∈ Model.opcodes_present (Model.m_execution this)
        /\ Get_Coefficients (Model.m_coefficients this) opcode term = None.
Proof.
  unfold Model.satisfies. split.
  - intros Hnot. apply (not_set_Forall_Exists _) in Hnot.
    destruct Hnot as (term & Hterm & Hbad). cbn in Hbad.
    apply (not_Forall_Exists _) in Hbad. apply Exists_exists in Hbad.
    destruct Hbad as (opcode & Hop & Hnone). cbn in Hnone.
    exists term, opcode. repeat split; [exact Hterm|exact Hop|].
    destruct (Get_Coefficients _ opcode term) eqn:E; [|reflexivity].
    exfalso. apply Hnone. eauto.
  - intros (term & opcode & Hterm & Hop & Hnone) Hall.
    specialize (Hall term Hterm). rewrite Forall_forall in Hall.
    specialize (Hall opcode Hop). rewrite Hnone in Hall.
    destruct Hall as [? ?]; discriminate.
Qed.

(** C6. Constructing the Power model throws (a [std::logic_error], the
    configuration error) exactly when the Coefficients do not satisfy every
    required interaction term, that is when some required term has no
    entry for some opcode present; then no model object results.  Otherwise
    construction succeeds with the model over the given collaborators. *)
Theorem Model_Power_ctor_checked
    (m_required_interaction_terms : gset string)
    (p_execution : Execution) (p_coefficients : Coefficients) :
  let this := {| Model.m_execution := p_execution;
                 Model.m_coefficients := p_coefficients |} in
  let constructed :=
    Model_Power.Model_Power_ctor m_required_interaction_terms p_execution p_coefficients in
  ((exists e, constructed = inl e)
   <-> Model.Check_Interaction_Terms this m_required_interaction_terms = false)
  /\ ((exists e, constructed = inl e)
      <-> ~ Model.satisfies this m_required_interaction_terms)
  /\ ((exists e, constructed = inl e)
      <-> exists term opcode : string,
            term ∈ m_required_interaction_terms
            /\ opcode ∈ Model.opcodes_present p_execution
            /\ Get_Coefficients p_coefficients opcode term = None)
  /\ (forall e, constructed = inl e ->
        (forall m, constructed <> inr m)
        /\ e = logic_error
                 "Model was not provided with correct interaction terms by the Coefficients file.")
  /\ (Model.satisfies this m_required_interaction_terms <-> constructed = inr this)
  /\ (forall m, constructed = inr m -> m = this).
Proof.
  intros this constructed.
  assert (Hcheck : (exists e, constructed = inl e)
                   <-> Model.Check_Interaction_Terms this m_required_interaction_terms = false).
  { subst constructed. unfold Model_Power.Model_Power_ctor, Model_Power.Get_Interaction_Terms.
    fold this. destruct (Model.Check_Interaction_Terms this _); cbn [negb].
    - split; [intros [e He]; discriminate|discriminate].
    - split; [reflexivity|eauto]. }
  assert (Hsat : (exists e, constructed = inl e)
                 <-> ~ Model.satisfies this m_required_interaction_terms).
  { rewrite Hcheck. unfold Model.Check_Interaction_Terms.
    rewrite bool_decide_eq_false. reflexivity. }
  split; [exact Hcheck|]. split; [exact Hsat|].
  split; [rewrite Hsat; apply not_satisfies_missing|].
  subst constructed. unfold Model_Power.Model_Power_ctor, Model_Power.Get_Interaction_Terms in *.
  fold this in Hsat |- *. unfold Model.Check_Interaction_Terms in *.
  destruct (bool_decide_reflect (Model.satisfies this m_required_interaction_terms))
    as [Hyes|Hno]; cbn [negb] in *.
  - split; [intros e He; discriminate|].
    split; [tauto|]. intros m Hm. congruence.
  - split; [intros e He; split; [discriminate|congruence]|].
    split; [|discriminate]. split; [tauto|discriminate].
Qed.

Example Model_Power_ctor_ones :
  Model_Power.Model_Power_ctor Worked.required Worked.execution Worked.ones
  = inr (Worked.model Worked.ones).
Proof. vm_compute. reflexivity. Qed.

Example Model_Power_ctor_empty :
  Model_Power.Model_Power_ctor Worked.required Worked.execution Worked.empty
  = inl (logic_error
           "Model was not provided with correct interaction terms by the Coefficients file.").
Proof. vm_compute. reflexivity. Qed.

(** ** calculate_term *)

(** C2. With the scalar 1.0 and 32 weights 0.5, [calculate_term] returns
    0.0: each sum 0 + 1.0 * 0.5 is converted back to the [int] accumulator
    and truncated to 0, where the exact sum of the 32 products is 16. *)
Theorem calculate_term_truncates :
  let half := binary_normalize 53 1024 1 (-1) false in
  let one := Fp.double_of_Z 1 in
  Get_Coefficients Worked.halves "ADD" "Operand1" = Some (replicate 32 half)
  /\ Fp.to_Q half = Some (1 # 2)
  /\ Fp.to_Q one = Some 1%Q
  /\ Model_Power.calculate_term (Worked.model Worked.halves) "ADD" "Operand1" one
     = inr (S754_zero false)
  /\ (exact_term 1 (replicate 32 (1 # 2)) == 16)%Q.
Proof. vm_compute. repeat split; reflexivity. Qed.

(** With weights that are whole numbers the accumulator loses nothing. *)
Example calculate_term_ones :
  Model_Power.calculate_term (Worked.model Worked.ones) "ADD" "Operand1" (Fp.double_of_Z 1)
  = inr (Fp.double_of_Z 32).
Proof. vm_compute. reflexivity. Qed.

(** ** Model_Hamming_Weight::Generate_Traces *)

Lemma hamming_weight_loop (this : Model.t) (l : list nat) (traces : list Fp.float) :
  fold_left (Model_Hamming_Weight.cycle_body this) l traces
  = traces ++ map (Model_Hamming_Weight.expected_sample (Model.m_execution this)) l.
Proof.
  revert traces. induction l as [|i l IH]; intros traces.
  - cbn [fold_left map]. rewrite app_nil_r. reflexivity.
  - cbn [fold_left map]. rewrite IH.
    unfold Model_Hamming_Weight.cycle_body, Model_Hamming_Weight.expected_sample,
      Model_Hamming_Weight.hamming_weight.
    destruct (Is_Normal_State _ i "Execute"); cbn [negb];
      rewrite <- app_assoc; reflexivity.
Qed.

Lemma hamming_weight_traces_after (this : Model.t) (n : nat) :
  Model_Hamming_Weight.traces_after this n
  = map (Model_Hamming_Weight.expected_sample (Model.m_execution this)) (seq 0 n).
Proof. unfold Model_Hamming_Weight.traces_after. apply hamming_weight_loop. Qed.

Lemma hamming_weight_sample (this : Model.t) (i : nat) :
  (i < Get_Cycle_Count (Model.m_execution this))%nat ->
  Model_Hamming_Weight.Generate_Traces this !! i
  = Some (Model_Hamming_Weight.expected_sample (Model.m_execution this) i).
Proof.
  intros Hi. unfold Model_Hamming_Weight.Generate_Traces.
  rewrite hamming_weight_traces_after.
  change (map ?f ?l) with (f <$> l).
  rewrite list_lookup_fmap, lookup_seq_lt by exact Hi. reflexivity.
Qed.

(** C4. At every cycle [i] of the execution the sample of the Hamming
    Weight trace is 0.0 when the Execute stage is not in a normal state,
    whatever the operand, and otherwise the population count of the 32-bit
    value of the first operand of the instruction in the stage: 0.0 for
    the value 0 and 32.0 for the value with all 32 bits set. *)
Theorem hamming_weight_samples (this : Model.t) (i : nat) :
  (i < Get_Cycle_Count (Model.m_execution this))%nat ->
  let e := Model.m_execution this in
  let v := Get_Operand_Value e i (Get_Instruction e i "Execute") 1 in
  let sample := Model_Hamming_Weight.Generate_Traces this !! i in
  (Is_Normal_State e i "Execute" = false -> sample = Some (S754_zero false))
  /\ (Is_Normal_State e i "Execute" = true ->
      sample = Some (Fp.float_of_Z (popcount (Bitset32.of_ullong v)))
      /\ (v = 0 -> sample = Some (S754_zero false))
      /\ (v = 4294967295 ->
          sample = Some (S754_finite false 8388608 (-18))
          /\ Fp.to_Q (S754_finite false 8388608 (-18)) = Some 32%Q)).
Proof.
  intros Hi e v sample. subst sample.
  rewrite hamming_weight_sample by exact Hi. fold e.
  unfold Model_Hamming_Weight.expected_sample. fold v.
  split; intros Hstate; rewrite Hstate; [reflexivity|].
  split; [reflexivity|]. split; intros Hv; rewrite Hv.
  - vm_compute. reflexivity.
  - split; vm_compute; reflexivity.
Qed.

Lemma hamming_weight_samples_witness :
  let e := Worked.execution in
  let v := Get_Operand_Value e 1 (Get_Instruction e 1%nat "Execute") 1 in
  let sample :=
    Model_Hamming_Weight.Generate_Traces (Worked.model Worked.empty) !! 1%nat in
  (Is_Normal_State e 1%nat "Execute" = false -> sample = Some (S754_zero false))
  /\ (Is_Normal_State e 1%nat "Execute" = true ->
      sample = Some (Fp.float_of_Z (popcount (Bitset32.of_ullong v)))
      /\ (v = 0 -> sample = Some (S754_zero false))
      /\ (v = 4294967295 ->
          sample = Some (S754_finite false 8388608 (-18))
          /\ Fp.to_Q (S754_finite false 8388608 (-18)) = Some 32%Q)).
Proof.
  apply (hamming_weight_samples (Worked.model Worked.empty) 1).
  vm_compute. lia.
Defined.

Example hamming_weight_worked :
  Model_Hamming_Weight.Generate_Traces (Worked.model Worked.empty)
  = [Fp.float_of_Z 0; Fp.float_of_Z 2; Fp.float_of_Z 2].
Proof. vm_compute. reflexivity. Qed.

(** ** Length and order of the generated trace *)

Lemma for_each_app {A S : Type} (body : S -> A -> result S) (l1 l2 : list A) (s : S) :
  for_each body (l1 ++ l2) s = (s1 ← for_each body l1 s; for_each body l2 s1).
Proof.
  revert s. induction l1 as [|x l1 IH]; intros s; [reflexivity|].
  cbn [app for_each]. destruct (body s x) as [e|s']; [reflexivity|].
  cbn. apply IH.
Qed.

Lemma interactions_range (v : Bitset32.t) : 0 <= calculate_interactions v <= 496.
Proof.
  pose proof (calculate_interactions_choose2 v).
  pose proof (popcount_bounds v). nia.
Qed.

Section Power_loop.

Variable m_required_interaction_terms : gset string.
Variables indeterminate_1 indeterminate_2 : Z.
Variable term_feature : string -> Model_Power.feature.
Variable this : Model.t.

Let body :=
  Model_Power.cycle_body m_required_interaction_terms
    indeterminate_1 indeterminate_2 term_feature this.

Let terms := Model_Power.get_instruction_terms indeterminate_1 indeterminate_2 this.

(** A cycle that does not throw appends exactly one sample. *)
Lemma cycle_body_appends
    (state state' : list Fp.float * option Model_Power.Assembly_Instruction_Power)
    (i : nat) :
  body state i = inr state' -> exists x, fst state' = fst state ++ [x].
Proof.
  unfold body, Model_Power.cycle_body. destruct state as [traces previous].
  destruct (negb (Is_Normal_State _ i "Execute")).
  - intros [= <-]. eauto.
  - destruct (Model_Power.sample _ _ _ _ _) as [e|x]; cbn; [intros [=]|].
    intros [= <-]. eauto.
Qed.

Lemma cycles_append (l : list nat)
    (state state' : list Fp.float * option Model_Power.Assembly_Instruction_Power) :
  for_each body l state = inr state' ->
  exists xs, fst state' = fst state ++ xs /\ length xs = length l.
Proof.
  revert state. induction l as [|i l IH]; intros state.
  - intros [= <-]. exists []. rewrite app_nil_r. split; reflexivity.
  - cbn [for_each]. destruct (body state i) as [e|s1] eqn:Hstep; cbn; [intros [=]|].
    intros Hrest. destruct (cycle_body_appends _ _ _ Hstep) as [x Hx].
    destruct (IH _ Hrest) as (xs & Hxs & Hlen).
    exists (x :: xs). rewrite Hxs, Hx, <- app_assoc. split; [reflexivity|].
    cbn [length]. lia.
Qed.

(** When the generation of [n + k] cycles returns [t], the generation of
    the first [n] cycles returns the first [n] samples of [t]. *)
Lemma power_prefix (n k : nat) (t : list Fp.float) :
  Model_Power.traces_after m_required_interaction_terms
    indeterminate_1 indeterminate_2 term_feature this (n + k) = inr t ->
  length t = (n + k)%nat
  /\ Model_Power.traces_after m_required_interaction_terms
       indeterminate_1 indeterminate_2 term_feature this n
     = inr (take n t).
Proof.
  unfold Model_Power.traces_after. fold body.
  rewrite seq_app, for_each_app.
  destruct (for_each body (seq 0 n) ([], None)) as [e|s1] eqn:H1; cbn; [intros [=]|].
  destruct (for_each body (seq n k) s1) as [e|s2] eqn:H2; cbn; [intros [=]|].
  intros [= <-].
  destruct (cycles_append _ _ _ H1) as (xs1 & Hxs1 & Hlen1).
  destruct (cycles_append _ _ _ H2) as (xs2 & Hxs2 & Hlen2).
  cbn [fst app] in Hxs1. rewrite length_seq in Hlen1, Hlen2.
  rewrite Hxs2, Hxs1. split.
  - rewrite length_app. lia.
  - rewrite take_app_length' by (symmetry; exact Hlen1). reflexivity.
Qed.

(** The bundle of a cycle holds the instruction in the Execute stage. *)
Lemma terms_instruction (i : nat) :
  Model_Power.instruction (terms i)
  = Get_Instruction (Model.m_execution this) i "Execute".
Proof.
  unfold terms, Model_Power.get_instruction_terms.
  destruct (negb _); reflexivity.
Qed.

(** Every scalar of a cycle is an interaction count. *)
Lemma scalar_of_range (f : Model_Power.feature) (i : nat)
    (previous : option Model_Power.Assembly_Instruction_Power) :
  0 <= Model_Power.scalar_of f (terms i) (Model_Power.cross_cycle (terms i) previous)
    <= 496.
Proof.
  destruct f; cbn [Model_Power.scalar_of].
  - unfold terms, Model_Power.get_instruction_terms.
    destruct (negb _); apply interactions_range.
  - unfold terms, Model_Power.get_instruction_terms.
    destruct (negb _); apply interactions_range.
  - destruct previous as [p|]; cbn [Model_Power.cross_cycle]; [|lia].
    unfold Model_Power.Instruction_Terms_Interactions_ctor.
    cbn [Model_Power.Bit_Flip1_Bit_Interactions]. apply interactions_range.
  - destruct previous as [p|]; cbn [Model_Power.cross_cycle]; [|lia].
    unfold Model_Power.Instruction_Terms_Interactions_ctor.
    cbn [Model_Power.Bit_Flip2_Bit_Interactions]. apply interactions_range.
Qed.

(** The sample of a cycle is computed when [calculate_term] returns for
    every required term and every interaction count. *)
Lemma sample_returns (i : nat)
    (previous : option Model_Power.Assembly_Instruction_Power) :
  (forall term, term ∈ m_required_interaction_terms ->
     forall scalar, 0 <= scalar <= 496 ->
       exists x, Model_Power.calculate_term this
                   (m_opcode (Get_Instruction (Model.m_execution this) i "Execute"))
                   term (Fp.double_of_Z scalar) = inr x) ->
  exists x, Model_Power.sample m_required_interaction_terms term_feature this
              (terms i) (Model_Power.cross_cycle (terms i) previous)
            = inr x.
Proof.
  intros Hall. unfold Model_Power.sample. rewrite terms_instruction.
  assert (Hel : forall term, term ∈ elements m_required_interaction_terms ->
                  forall scalar, 0 <= scalar <= 496 ->
                    exists x, Model_Power.calculate_term this
                                (m_opcode (Get_Instruction (Model.m_execution this) i "Execute"))
                                term (Fp.double_of_Z scalar) = inr x).
  { intros term Hterm. apply Hall. apply elem_of_elements. exact Hterm. }
  clear Hall. generalize (Fp.double_of_Z 0) as sum.
  induction (elements m_required_interaction_terms) as [|term l IH]; intros sum.
  - cbn. eauto.
  - cbn [for_each].
    destruct (Hel term ltac:(left) _ (scalar_of_range (term_feature term) i previous))
      as [x Hx].
    rewrite Hx. cbn. apply IH. intros term' Hterm'. apply Hel. right. exact Hterm'.
Qed.

Lemma power_returns (n : nat) :
  Model_Power.well_calibrated this m_required_interaction_terms ->
  (n <= Get_Cycle_Count (Model.m_execution this))%nat ->
  exists state, for_each body (seq 0 n) ([], None) = inr state.
Proof.
  intros Hcal. induction n as [|n IH]; intros Hn.
  - cbn. eauto.
  - destruct IH as [[traces previous] Hstate]; [lia|].
    rewrite seq_S, for_each_app, Hstate. cbn.
    unfold body, Model_Power.cycle_body. fold terms.
    destruct (Is_Normal_State _ n "Execute") eqn:Hnormal; cbn [negb]; [|eauto].
    destruct (sample_returns n previous) as [x Hx].
    + intros term Hterm scalar Hscalar.
      exact (Hcal n ltac:(lia) Hnormal term Hterm scalar Hscalar).
    + rewrite Hx. cbn. eauto.
Qed.

End Power_loop.

(** C5. For each registered model and every execution, the trace that
    [Generate_Traces] returns has exactly as many samples as the execution
    has cycles, one appended per cycle in increasing order: after the first
    [n] cycles the trace is the first [n] samples of the final one.  The
    Hamming Weight model always returns a trace; the Power model returns
    one whenever [calculate_term] returns for the terms of the normal
    cycles. *)
Theorem trace_length
    (m_required_interaction_terms : gset string)
    (indeterminate_1 indeterminate_2 : Z)
    (term_feature : string -> Model_Power.feature) (this : Model.t) :
  (exists t, Generate_Traces m_required_interaction_terms
               indeterminate_1 indeterminate_2 term_feature
               Hamming_Weight this = inr t)
  /\ (Model_Power.well_calibrated this m_required_interaction_terms ->
      exists t, Generate_Traces m_required_interaction_terms
                  indeterminate_1 indeterminate_2 term_feature
                  Power this = inr t)
  /\ forall (k : registered_model) (t : list Fp.float),
       Generate_Traces m_required_interaction_terms
         indeterminate_1 indeterminate_2 term_feature k this = inr t ->
       length t = Get_Cycle_Count (Model.m_execution this)
       /\ forall n : nat,
            (n <= Get_Cycle_Count (Model.m_execution this))%nat ->
            traces_after m_required_interaction_terms
              indeterminate_1 indeterminate_2 term_feature k this n
            = inr (take n t).
Proof.
  split; [cbn; eauto|]. split.
  - intros Hcal. cbn. unfold Model_Power.Generate_Traces, Model_Power.traces_after.
    destruct (power_returns _ indeterminate_1 indeterminate_2 term_feature this _
                Hcal (Nat.le_refl _)) as [state Hstate].
    rewrite Hstate. cbn. eauto.
  - intros [|] t Hgen.
    + cbn in Hgen. injection Hgen as <-.
      unfold Model_Hamming_Weight.Generate_Traces.
      rewrite hamming_weight_traces_after. split.
      * rewrite length_map, length_seq. reflexivity.
      * intros n Hn. cbn [traces_after]. rewrite hamming_weight_traces_after.
        change (map ?f ?l) with (f <$> l).
        rewrite <- fmap_take, take_seq. f_equal. f_equal. f_equal. lia.
    + cbn in Hgen. unfold Model_Power.Generate_Traces in Hgen. split.
      * replace (Get_Cycle_Count (Model.m_execution this))
          with (Get_Cycle_Count (Model.m_execution this) + 0)%nat in Hgen by lia.
        destruct (power_prefix _ _ _ _ _ _ _ _ Hgen) as [Hlen _]. lia.
      * intros n Hn. cbn [traces_after].
        replace (Get_Cycle_Count (Model.m_execution this))
          with (n + (Get_Cycle_Count (Model.m_execution this) - n))%nat in Hgen by lia.
        destruct (power_prefix _ _ _ _ _ _ _ _ Hgen) as [_ Hpre]. exact Hpre.
Qed.

Lemma trace_length_witness :
  let t := [S754_zero false; S754_finite false 8388608 (-18);
            S754_finite false 8388608 (-17)] in
  length t = 3%nat
  /\ forall n : nat,
       (n <= 3)%nat ->
       traces_after Worked.required 0 0 Worked.term_feature Power
         (Worked.model Worked.ones) n
       = inr (take n t).
Proof.
  apply (proj2 (proj2 (trace_length Worked.required 0 0 Worked.term_feature
                         (Worked.model Worked.ones))) Power).
  vm_compute. reflexivity.
Defined.

(** The worked execution under the Power model: 0.0 in the stall, then
    32.0 and 64.0. *)
Example power_worked :
  Generate_Traces Worked.required 0 0 Worked.term_feature Power
    (Worked.model Worked.ones)
  = inr [Fp.float_of_Z 0; Fp.float_of_Z 32; Fp.float_of_Z 64].
Proof. vm_compute. reflexivity. Qed.

(** Without calibration data the first normal cycle fails. *)
Example power_worked_empty :
  Generate_Traces Worked.required 0 0 Worked.term_feature Power
    (Worked.model Worked.empty)
  = inl lookup_error.
Proof. vm_compute. reflexivity. Qed.

(** With weights 0.5 every contribution is truncated away. *)
Example power_worked_halves :
  Generate_Traces Worked.required 0 0 Worked.term_feature Power
    (Worked.model Worked.halves)
  = inr [Fp.float_of_Z 0; Fp.float_of_Z 0; Fp.float_of_Z 0].
Proof. vm_compute. reflexivity. Qed.

(** The table of ones is well calibrated for the worked execution. *)
Example well_calibrated_ones :
  Model_Power.well_calibrated (Worked.model Worked.ones) Worked.required.
Proof.
  intros i Hi Hnormal term Hterm scalar Hscalar.
  assert (Hall :
    forallb
      (fun k =>
         match Model_Power.calculate_term (Worked.model Worked.ones) "ADD" EmptyString
                 (Fp.double_of_Z (Z.of_nat k)) with
         | inr _ => true
         | inl _ => false
         end) (seq 0 497) = true) by (vm_compute; reflexivity).
  rewrite forallb_forall in Hall.
  specialize (Hall (Z.to_nat scalar)). rewrite Z2Nat.id in Hall by lia.
  assert (Hop : m_opcode (Get_Instruction (Model.m_execution (Worked.model Worked.ones))
                            i "Execute") = "ADD").
  { cbn. match goal with |- context [if ?c then _ else _] => destruct c end;
      reflexivity. }
  rewrite Hop.
  change (Model_Power.calculate_term (Worked.model Worked.ones) "ADD" term
            (Fp.double_of_Z scalar))
    with (Model_Power.calculate_term (Worked.model Worked.ones) "ADD" EmptyString
            (Fp.double_of_Z scalar)).
  destruct (Model_Power.calculate_term _ _ _ _) as [e|x]; [|eauto].
  discriminate Hall. apply in_seq. lia.
Qed.

(** * Further properties of the code *)

(** ** Bitsets and population counts *)

Lemma of_ullong_testbit (v j : Z) :
  0 <= j ->
  Z.testbit (Bitset32.of_ullong v) j = if j <? 32 then Z.testbit v j else false.
Proof.
  intros Hj. unfold Bitset32.of_ullong. rewrite Z.land_spec.
  destruct (Z.ltb_spec j 32).
  - rewrite Z.ones_spec_low by lia. apply andb_true_r.
  - rewrite Z.ones_spec_high by lia. apply andb_false_r.
Qed.

Lemma of_ullong_get (v : Z) (i : nat) :
  (i < 32)%nat -> Bitset32.get (Bitset32.of_ullong v) i = Bitset32.get v i.
Proof.
  intros Hi. unfold Bitset32.get. rewrite of_ullong_testbit by lia.
  destruct (Z.ltb_spec (Z.of_nat i) 32); [reflexivity|lia].
Qed.

Lemma of_ullong_range (v : Z) : 0 <= Bitset32.of_ullong v < 2 ^ 32.
Proof.
  unfold Bitset32.of_ullong. rewrite Z.land_ones by lia.
  apply Z.mod_pos_bound. lia.
Qed.

Lemma of_ullong_small (v : Z) : 0 <= v < 2 ^ 32 -> Bitset32.of_ullong v = v.
Proof.
  intros Hv. unfold Bitset32.of_ullong. rewrite Z.land_ones by lia.
  apply Z.mod_small. exact Hv.
Qed.

Lemma of_ullong_mod64 (v : Z) :
  Bitset32.of_ullong (v mod 2 ^ 64) = Bitset32.of_ullong v.
Proof.
  apply Z.bits_inj'. intros j Hj. rewrite !of_ullong_testbit by exact Hj.
  destruct (Z.ltb_spec j 32); [|reflexivity].
  apply Z.mod_pow2_bits_low. lia.
Qed.

Lemma cnt_le (b b' : nat -> bool) (l : list nat) :
  (forall i, i ∈ l -> b i = true -> b' i = true) -> cnt b l <= cnt b' l.
Proof.
  induction l as [|i l IH]; intros H; [rewrite !cnt_nil; lia|].
  rewrite !cnt_cons.
  assert (Hl : cnt b l <= cnt b' l).
  { apply IH. intros k Hk. apply H. right. exact Hk. }
  pose proof (H i ltac:(left)) as Hi.
  destruct (b i), (b' i); cbn [Z.b2z]; try lia.
  all: specialize (Hi eq_refl); discriminate.
Qed.

Lemma cnt_ext (b b' : nat -> bool) (l : list nat) :
  (forall i, i ∈ l -> b i = b' i) -> cnt b l = cnt b' l.
Proof.
  intros H. apply Z.le_antisymm; apply cnt_le; intros i Hi Hb.
  - rewrite <- (H i Hi). exact Hb.
  - rewrite (H i Hi). exact Hb.
Qed.

Lemma cnt_disjoint (a b : Z) (l : list nat) :
  Z.land a b = 0 ->
  cnt (Bitset32.get (Z.lor a b)) l = cnt (Bitset32.get a) l + cnt (Bitset32.get b) l.
Proof.
  intros Hd. induction l as [|i l IH]; [reflexivity|].
  rewrite !cnt_cons, IH. unfold Bitset32.get. rewrite Z.lor_spec.
  assert (Hi : Z.testbit a (Z.of_nat i) && Z.testbit b (Z.of_nat i) = false).
  { rewrite <- Z.land_spec, Hd. apply Z.testbit_0_l. }
  destruct (Z.testbit a (Z.of_nat i)), (Z.testbit b (Z.of_nat i));
    cbn [Z.b2z orb] in *; try lia; discriminate.
Qed.

Lemma seq_below (i n : nat) : i ∈ seq 0 n -> (i < n)%nat.
Proof. intros H%list_elem_of_In%in_seq. lia. Qed.

Lemma popcount_of_ullong (v : Z) : popcount (Bitset32.of_ullong v) = popcount v.
Proof.
  apply (cnt_ext (Bitset32.get (Bitset32.of_ullong v)) (Bitset32.get v) (seq 0 32)).
  intros i Hi. apply of_ullong_get. exact (seq_below i 32 Hi).
Qed.

(** The interaction count is a function of the population count. *)
Lemma interactions_of_popcount (a b : Bitset32.t) :
  popcount a = popcount b -> calculate_interactions a = calculate_interactions b.
Proof.
  intros H. pose proof (calculate_interactions_choose2 a).
  pose proof (calculate_interactions_choose2 b). rewrite H in *. lia.
Qed.

Lemma interactions_half (v : Bitset32.t) :
  calculate_interactions v = popcount v * (popcount v - 1) / 2.
Proof.
  rewrite <- (calculate_interactions_choose2 v), Z.mul_comm.
  symmetry. apply Z.div_mul. lia.
Qed.

(** ** calculate_interactions *)

(** X1. The count is never negative and never exceeds the 496 pairs of 32
    positions; the [std::size_t] result cannot wrap. *)
Theorem calculate_interactions_bounds (v : Bitset32.t) :
  0 <= calculate_interactions v <= 496.
Proof.
  pose proof (calculate_interactions_choose2 v).
  pose proof (popcount_bounds v). nia.
Qed.

(** X2. No interaction is counted exactly when at most one bit is set. *)
Theorem calculate_interactions_none (v : Bitset32.t) :
  calculate_interactions v = 0 <-> popcount v <= 1.
Proof.
  pose proof (calculate_interactions_choose2 v).
  pose proof (popcount_bounds v). split; intros; nia.
Qed.

(** X3. Setting further bits never lowers the count. *)
Theorem calculate_interactions_monotone (a b : Bitset32.t) :
  (forall i : nat, (i < 32)%nat -> Bitset32.get a i = true -> Bitset32.get b i = true) ->
  calculate_interactions a <= calculate_interactions b.
Proof.
  intros Hsub.
  assert (Hk : popcount a <= popcount b).
  { apply (cnt_le (Bitset32.get a) (Bitset32.get b) (seq 0 32)).
    intros i Hi. apply Hsub. exact (seq_below i 32 Hi). }
  pose proof (calculate_interactions_choose2 a) as Ha.
  pose proof (calculate_interactions_choose2 b) as Hb.
  pose proof (popcount_bounds a). pose proof (popcount_bounds b).
  assert (Hmono : popcount a * (popcount a - 1) <= popcount b * (popcount b - 1)).
  { destruct (Z.eq_dec (popcount a) 0) as [E|E]; [rewrite E; nia|].
    apply Z.mul_le_mono_nonneg; lia. }
  lia.
Qed.

Lemma calculate_interactions_monotone_witness :
  calculate_interactions 5 <= calculate_interactions 7.
Proof.
  apply (calculate_interactions_monotone 5 7).
  intros i Hi. do 32 (destruct i as [|i]; [vm_compute; congruence|]). lia.
Defined.

(** X4. The count of the union of two words without a common set bit: the
    pairs within each word and one pair for each bit of the one with each
    bit of the other. *)
Theorem calculate_interactions_disjoint (a b : Bitset32.t) :
  Z.land a b = 0 ->
  calculate_interactions (Z.lor a b)
  = calculate_interactions a + calculate_interactions b + popcount a * popcount b.
Proof.
  intros Hd.
  assert (Hk : popcount (Z.lor a b) = popcount a + popcount b)
    by exact (cnt_disjoint a b (seq 0 32) Hd).
  pose proof (calculate_interactions_choose2 (Z.lor a b)).
  pose proof (calculate_interactions_choose2 a).
  pose proof (calculate_interactions_choose2 b). rewrite Hk in *. nia.
Qed.

Lemma calculate_interactions_disjoint_witness :
  calculate_interactions (Z.lor 5 10)
  = calculate_interactions 5 + calculate_interactions 10 + popcount 5 * popcount 10.
Proof. apply (calculate_interactions_disjoint 5 10). reflexivity. Defined.

(** X5. The conversion of a [std::size_t] operand to [std::bitset<32>] drops
    the bits from position 32 on: operands that agree on their low 32 bits
    get the same self-interaction scalar. *)
Theorem operand_interactions_low32
    (indeterminate_1 indeterminate_2 : Z) (p_instruction : Assembly_Instruction)
    (p_operand_1 p_operand_2 q_operand_1 q_operand_2 : Z) :
  p_operand_1 mod 2 ^ 32 = q_operand_1 mod 2 ^ 32 ->
  p_operand_2 mod 2 ^ 32 = q_operand_2 mod 2 ^ 32 ->
  Model_Power.Assembly_Instruction_Power_ctor indeterminate_1 indeterminate_2
    p_instruction p_operand_1 p_operand_2
  = Model_Power.Assembly_Instruction_Power_ctor indeterminate_1 indeterminate_2
      p_instruction q_operand_1 q_operand_2.
Proof.
  intros H1 H2. unfold Model_Power.Assembly_Instruction_Power_ctor, Bitset32.of_ullong.
  rewrite !Z.land_ones by lia. rewrite H1, H2. reflexivity.
Qed.

Lemma operand_interactions_low32_witness :
  Model_Power.Assembly_Instruction_Power_ctor 0 0 (Worked.ADD "5" "2") (2 ^ 32 + 5) 2
  = Model_Power.Assembly_Instruction_Power_ctor 0 0 (Worked.ADD "5" "2") 5 (2 ^ 40 + 2).
Proof.
  apply (operand_interactions_low32 0 0 (Worked.ADD "5" "2") (2 ^ 32 + 5) 2 5 (2 ^ 40 + 2));
    reflexivity.
Defined.

(** ** calculate_bitflips *)

(** Equality of two integers from the equality of their bits, the bits of
    the flips and of the 32-bit conversions being read position by
    position. *)
Ltac by_bits :=
  apply Z.bits_inj'; intros ?j ?Hj;
  repeat first
    [ rewrite calculate_bitflips_testbit by assumption
    | rewrite of_ullong_testbit by assumption
    | rewrite Z.lxor_spec ];
  try (rewrite Z.testbit_0_l);
  match goal with
  | |- context [?j <? 32] => destruct (Z.ltb_spec j 32)
  | _ => idtac
  end;
  repeat match goal with
         | |- context [Z.testbit ?x ?j] => destruct (Z.testbit x j)
         end;
  try reflexivity.

Lemma calculate_bitflips_low32 (a b : Bitset32.t) :
  Model_Power.calculate_bitflips a b
  = Z.lxor (Bitset32.of_ullong a) (Bitset32.of_ullong b).
Proof. by_bits. Qed.

(** X6. Whatever the arguments hold above position 31, the result is a 32-bit
    word: the flips of the low 32 bits of the arguments. *)
Theorem calculate_bitflips_range (a b : Bitset32.t) :
  0 <= Model_Power.calculate_bitflips a b < 2 ^ 32
  /\ Model_Power.calculate_bitflips a b
     = Bitset32.of_ullong (Z.lxor a b).
Proof.
  assert (H : Model_Power.calculate_bitflips a b = Bitset32.of_ullong (Z.lxor a b))
    by by_bits.
  split; [rewrite H; apply of_ullong_range|exact H].
Qed.

(** X7. The flips do not depend on the order of the two operands. *)
Theorem calculate_bitflips_comm (a b : Bitset32.t) :
  Model_Power.calculate_bitflips a b = Model_Power.calculate_bitflips b a.
Proof. by_bits. Qed.

(** X8. Flipping back: applying to one operand the flips between the two
    operands gives the low 32 bits of the other operand. *)
Theorem calculate_bitflips_round_trip (a b : Bitset32.t) :
  Model_Power.calculate_bitflips (Model_Power.calculate_bitflips a b) b
  = Bitset32.of_ullong a.
Proof. by_bits. Qed.

(** X9. The flips across two steps compose to the flips between the end
    points. *)
Theorem calculate_bitflips_compose (a b c : Bitset32.t) :
  Model_Power.calculate_bitflips
    (Model_Power.calculate_bitflips a b) (Model_Power.calculate_bitflips b c)
  = Model_Power.calculate_bitflips a c.
Proof. by_bits. Qed.

(** X10. No bit flips exactly when the two operands have the same low 32 bits. *)
Theorem calculate_bitflips_none (a b : Bitset32.t) :
  Model_Power.calculate_bitflips a b = 0
  <-> Bitset32.of_ullong a = Bitset32.of_ullong b.
Proof. rewrite calculate_bitflips_low32. apply Z.lxor_eq_0_iff. Qed.

(** ** Instruction_Terms_Interactions *)

(** X11. The constructor stores, for both operands, the XOR of the low 32 bits
    of operand 1 of its first argument and of operand 2 of its second, and,
    as both scalars, the number of pairs among the [d] positions where
    these two values differ. *)
Theorem Instruction_Terms_Interactions_values
    (p_instruction_1 p_instruction_2 : Model_Power.Assembly_Instruction_Power) :
  let stored :=
    Model_Power.Instruction_Terms_Interactions_ctor p_instruction_1 p_instruction_2 in
  let flips :=
    Z.lxor (Model_Power.Operand_1 p_instruction_1 mod 2 ^ 32)
           (Model_Power.Operand_2 p_instruction_2 mod 2 ^ 32) in
  let d := popcount flips in
  Model_Power.Operand_1_Bit_Flip stored = flips
  /\ Model_Power.Operand_2_Bit_Flip stored = flips
  /\ Model_Power.Bit_Flip1_Bit_Interactions stored = d * (d - 1) / 2
  /\ Model_Power.Bit_Flip2_Bit_Interactions stored = d * (d - 1) / 2.
Proof.
  intros stored flips d.
  assert (Hflips :
    Model_Power.calculate_bitflips
      (Bitset32.of_ullong (Model_Power.Operand_1 p_instruction_1))
      (Bitset32.of_ullong (Model_Power.Operand_2 p_instruction_2)) = flips).
  { rewrite calculate_bitflips_low32.
    rewrite !(of_ullong_small (Bitset32.of_ullong _)) by apply of_ullong_range.
    unfold flips, Bitset32.of_ullong. rewrite !Z.land_ones by lia. reflexivity. }
  subst stored. unfold Model_Power.Instruction_Terms_Interactions_ctor.
  cbn [Model_Power.Operand_1_Bit_Flip Model_Power.Operand_2_Bit_Flip
       Model_Power.Bit_Flip1_Bit_Interactions Model_Power.Bit_Flip2_Bit_Interactions].
  rewrite Hflips. repeat split; apply interactions_half.
Qed.

(** ** get_instruction_terms *)

(** X12. At a cycle where the Execute stage is in a normal state, the bundle
    holds the instruction in the stage, and each self-interaction scalar is
    the number of pairs among the set bits of the low 32 bits of the value
    of the corresponding operand. *)
Theorem get_instruction_terms_normal
    (indeterminate_1 indeterminate_2 : Z) (this : Model.t) (p_cycle : nat) :
  Is_Normal_State (Model.m_execution this) p_cycle "Execute" = true ->
  let e := Model.m_execution this in
  let instruction := Get_Instruction e p_cycle "Execute" in
  let k1 := popcount (Get_Operand_Value e p_cycle instruction 1 mod 2 ^ 32) in
  let k2 := popcount (Get_Operand_Value e p_cycle instruction 2 mod 2 ^ 32) in
  let terms :=
    Model_Power.get_instruction_terms indeterminate_1 indeterminate_2 this p_cycle in
  Model_Power.instruction terms = instruction
  /\ Model_Power.Operand_1_Bit_Interactions terms = k1 * (k1 - 1) / 2
  /\ Model_Power.Operand_2_Bit_Interactions terms = k2 * (k2 - 1) / 2.
Proof.
  intros Hnormal e instruction k1 k2 terms. subst terms k1 k2 instruction e.
  unfold Model_Power.get_instruction_terms. rewrite Hnormal. cbn [negb].
  cbn [Model_Power.Assembly_Instruction_Power_ctor Model_Power.instruction
       Model_Power.Operand_1_Bit_Interactions Model_Power.Operand_2_Bit_Interactions].
  rewrite !of_ullong_mod64, !interactions_half.
  unfold Bitset32.of_ullong. rewrite !Z.land_ones by lia.
  repeat split; reflexivity.
Qed.

Lemma get_instruction_terms_normal_witness :
  let e := Worked.execution in
  let instruction := Get_Instruction e 2%nat "Execute" in
  let k1 := popcount (Get_Operand_Value e 2%nat instruction 1 mod 2 ^ 32) in
  let k2 := popcount (Get_Operand_Value e 2%nat instruction 2 mod 2 ^ 32) in
  let terms := Model_Power.get_instruction_terms 0 0 (Worked.model Worked.ones) 2 in
  Model_Power.instruction terms = instruction
  /\ Model_Power.Operand_1_Bit_Interactions terms = k1 * (k1 - 1) / 2
  /\ Model_Power.Operand_2_Bit_Interactions terms = k2 * (k2 - 1) / 2.
Proof.
  apply (get_instruction_terms_normal 0 0 (Worked.model Worked.ones) 2).
  reflexivity.
Defined.

(** ** calculate_term *)

Lemma int_of_double_range (d : Fp.double) (z : Z) :
  Fp.int_of_double d = inr z -> Fp.INT_MIN <= z <= Fp.INT_MAX.
Proof.
  unfold Fp.int_of_double. destruct (Fp.truncate d) as [t|]; [|intros [=]].
  case_bool_decide; [|intros [=]]. intros [= <-]. assumption.
Qed.

(** The accumulator of [calculate_term] is an [int] after every step. *)
Lemma term_loop_range (x : Fp.double) (l : list Fp.double) (z0 z : Z) :
  Fp.INT_MIN <= z0 <= Fp.INT_MAX ->
  for_each
    (fun total bit =>
       Fp.int_of_double
         (Fp.double_add (Fp.double_of_Z total) (Fp.double_mul x bit))) l z0
  = inr z ->
  Fp.INT_MIN <= z <= Fp.INT_MAX.
Proof.
  revert z0. induction l as [|w l IH]; intros z0 Hz0.
  - intros [= <-]. exact Hz0.
  - cbn [for_each].
    destruct (Fp.int_of_double _) as [e|z1] eqn:Hstep; cbn; [intros [=]|].
    apply IH. exact (int_of_double_range _ _ Hstep).
Qed.

Lemma add_to_zero_truncates (p : Fp.double) :
  Fp.truncate p = Some 0 ->
  Fp.int_of_double (Fp.double_add (Fp.double_of_Z 0) p) = inr 0.
Proof.
  change (Fp.double_of_Z 0) with (S754_zero false).
  destruct p as [s|s| |s m e]; cbn [Fp.truncate]; try discriminate.
  - intros _. destruct s; reflexivity.
  - intros H.
    change (Fp.double_add (S754_zero false) (S754_finite s m e))
      with (S754_finite s m e).
    injection H as H.
    unfold Fp.int_of_double. cbn [Fp.truncate]. rewrite H. reflexivity.
Qed.

(** While every product truncates to 0 the accumulator stays 0. *)
Lemma term_loop_zero (x : Fp.double) (l : list Fp.double) :
  (forall w, w ∈ l -> Fp.truncate (Fp.double_mul x w) = Some 0) ->
  for_each
    (fun total bit =>
       Fp.int_of_double
         (Fp.double_add (Fp.double_of_Z total) (Fp.double_mul x bit))) l 0
  = inr 0.
Proof.
  induction l as [|w l IH]; intros H; [reflexivity|].
  cbn [for_each]. rewrite add_to_zero_truncates by (apply H; left).
  cbn. apply IH. intros w' Hw'. apply H. right. exact Hw'.
Qed.

(** X14. Whenever [calculate_term] returns, it returns a whole number in the
    range of [int], whatever the scalar and the weights are. *)
Theorem calculate_term_integral (this : Model.t) (p_opcode p_term_name : string)
    (p_instruction_term d : Fp.double) :
  Model_Power.calculate_term this p_opcode p_term_name p_instruction_term = inr d ->
  exists z : Z, Fp.INT_MIN <= z <= Fp.INT_MAX /\ d = Fp.double_of_Z z.
Proof.
  unfold Model_Power.calculate_term.
  destruct (Get_Coefficients _ p_opcode p_term_name) as [coefficients|]; [|intros [=]].
  destruct (for_each _ coefficients 0) as [e|total] eqn:Hloop; cbn; [intros [=]|].
  intros [= <-]. exists total. split; [|reflexivity].
  apply (term_loop_range p_instruction_term coefficients 0 total); [|exact Hloop].
  unfold Fp.INT_MIN, Fp.INT_MAX. lia.
Qed.

Lemma calculate_term_integral_witness :
  exists z : Z, Fp.INT_MIN <= z <= Fp.INT_MAX /\ Fp.double_of_Z 32 = Fp.double_of_Z z.
Proof.
  apply (calculate_term_integral (Worked.model Worked.ones) "ADD" "Operand1"
           (Fp.double_of_Z 1) (Fp.double_of_Z 32)).
  vm_compute. reflexivity.
Defined.

(** X15. When each single product of the scalar with a weight truncates to 0,
    the term is 0.0 however many weights there are: the fractions are
    dropped one by one and never add up. *)
Theorem calculate_term_fractions_lost (this : Model.t) (p_opcode p_term_name : string)
    (p_instruction_term : Fp.double) (coefficients : list Fp.double) :
  Get_Coefficients (Model.m_coefficients this) p_opcode p_term_name = Some coefficients ->
  (forall bit, bit ∈ coefficients ->
     Fp.truncate (Fp.double_mul p_instruction_term bit) = Some 0) ->
  Model_Power.calculate_term this p_opcode p_term_name p_instruction_term
  = inr (S754_zero false).
Proof.
  intros Hc Hsmall. unfold Model_Power.calculate_term. rewrite Hc.
  rewrite term_loop_zero by exact Hsmall. reflexivity.
Qed.

Lemma calculate_term_fractions_lost_witness :
  Model_Power.calculate_term (Worked.model Worked.halves) "MUL" "BitFlip1"
    (Fp.double_of_Z 1)
  = inr (S754_zero false).
Proof.
  apply (calculate_term_fractions_lost (Worked.model Worked.halves) "MUL" "BitFlip1"
           (Fp.double_of_Z 1) (replicate 32 (binary_normalize 53 1024 1 (-1) false))).
  - reflexivity.
  - intros bit [-> _]%elem_of_replicate. vm_compute. reflexivity.
Defined.

(** X16. With the scalar 0.0, the scalar of a stalled cycle, the term is 0.0 for
    any vector of finite weights. *)
Theorem calculate_term_zero_scalar (this : Model.t) (p_opcode p_term_name : string)
    (s : bool) (coefficients : list Fp.double) :
  Get_Coefficients (Model.m_coefficients this) p_opcode p_term_name = Some coefficients ->
  (forall bit, bit ∈ coefficients -> is_Some (Fp.to_Q bit)) ->
  Model_Power.calculate_term this p_opcode p_term_name (S754_zero s)
  = inr (S754_zero false).
Proof.
  intros Hc Hfinite. unfold Model_Power.calculate_term. rewrite Hc.
  rewrite term_loop_zero; [reflexivity|].
  intros bit Hbit. destruct (Hfinite bit Hbit) as [q Hq].
  destruct bit; cbn in Hq; try discriminate; reflexivity.
Qed.

Lemma calculate_term_zero_scalar_witness :
  Model_Power.calculate_term (Worked.model Worked.ones) "ADD" "Operand1"
    (S754_zero false)
  = inr (S754_zero false).
Proof.
  apply (calculate_term_zero_scalar (Worked.model Worked.ones) "ADD" "Operand1" false
           (replicate 32 (Fp.double_of_Z 1))).
  - reflexivity.
  - intros bit [-> _]%elem_of_replicate. vm_compute. eauto.
Defined.

(** X17. A scalar that is a NaN or an infinity makes the first step convert a
    NaN or an infinity to [int], which is undefined, for any non-empty
    vector of weights. *)
Theorem calculate_term_not_finite (this : Model.t) (p_opcode p_term_name : string)
    (p_instruction_term bit : Fp.double) (coefficients : list Fp.double) :
  Get_Coefficients (Model.m_coefficients this) p_opcode p_term_name
  = Some (bit :: coefficients) ->
  Fp.to_Q p_instruction_term = None ->
  Model_Power.calculate_term this p_opcode p_term_name p_instruction_term
  = inl undefined_behaviour.
Proof.
  intros Hc Hx. unfold Model_Power.calculate_term. rewrite Hc. cbn [for_each].
  change (Fp.double_of_Z 0) with (S754_zero false).
  destruct p_instruction_term as [sx|sx| |sx mx ex]; cbn in Hx; try discriminate;
    destruct bit as [sy|sy| |sy my ey]; reflexivity.
Qed.

Lemma calculate_term_not_finite_witness :
  Model_Power.calculate_term (Worked.model Worked.ones) "ADD" "Operand1" S754_nan
  = inl undefined_behaviour.
Proof.
  apply (calculate_term_not_finite (Worked.model Worked.ones) "ADD" "Operand1" S754_nan
           (Fp.double_of_Z 1) (replicate 31 (Fp.double_of_Z 1)));
    reflexivity.
Defined.

(** ** Model_Hamming_Weight::Generate_Traces, continued *)

Lemma map_constant {A B : Type} (f : A -> B) (c : B) (l : list A) :
  (forall x, x ∈ l -> f x = c) -> map f l = replicate (length l) c.
Proof.
  induction l as [|x l IH]; intros H; [reflexivity|].
  cbn [map length replicate]. rewrite (H x) by left.
  rewrite IH; [reflexivity|]. intros y Hy. apply H. right. exact Hy.
Qed.

(** X18. When the Execute stage is never in a normal state, the trace is one
    0.0 per cycle, whatever the instructions and operands are. *)
Theorem hamming_weight_all_stalled (this : Model.t) :
  (forall i : nat,
     (i < Get_Cycle_Count (Model.m_execution this))%nat ->
     Is_Normal_State (Model.m_execution this) i "Execute" = false) ->
  Model_Hamming_Weight.Generate_Traces this
  = replicate (Get_Cycle_Count (Model.m_execution this)) (S754_zero false).
Proof.
  intros Hstall. unfold Model_Hamming_Weight.Generate_Traces.
  rewrite hamming_weight_traces_after.
  rewrite (map_constant _ (S754_zero false)).
  - rewrite length_seq. reflexivity.
  - intros i Hi. unfold Model_Hamming_Weight.expected_sample.
    rewrite Hstall by exact (seq_below _ _ Hi). reflexivity.
Qed.

Lemma hamming_weight_all_stalled_witness :
  Model_Hamming_Weight.Generate_Traces
    {| Model.m_execution := Worked.stalled; Model.m_coefficients := Worked.empty |}
  = replicate 3 (S754_zero false).
Proof.
  apply (hamming_weight_all_stalled
           {| Model.m_execution := Worked.stalled; Model.m_coefficients := Worked.empty |}).
  intros i Hi. reflexivity.
Defined.

(** X19. The trace is determined by the number of cycles, the state of the
    Execute stage at each cycle and, at the normal cycles, the value of the
    first operand of the instruction in the stage: nothing else of the
    execution, and nothing of the Coefficients, is read. *)
Theorem hamming_weight_reads_only (this this' : Model.t) :
  let e := Model.m_execution this in
  let e' := Model.m_execution this' in
  Get_Cycle_Count e = Get_Cycle_Count e' ->
  (forall i : nat,
     (i < Get_Cycle_Count e)%nat ->
     Is_Normal_State e i "Execute" = Is_Normal_State e' i "Execute") ->
  (forall i : nat,
     (i < Get_Cycle_Count e)%nat ->
     Is_Normal_State e i "Execute" = true ->
     Get_Operand_Value e i (Get_Instruction e i "Execute") 1
     = Get_Operand_Value e' i (Get_Instruction e' i "Execute") 1) ->
  Model_Hamming_Weight.Generate_Traces this
  = Model_Hamming_Weight.Generate_Traces this'.
Proof.
  intros e e' Hcount Hstate Hvalue.
  unfold Model_Hamming_Weight.Generate_Traces.
  rewrite !hamming_weight_traces_after. fold e e'. rewrite <- Hcount.
  apply map_ext_in. intros i Hi%list_elem_of_In.
  pose proof (seq_below _ _ Hi) as Hlt.
  unfold Model_Hamming_Weight.expected_sample.
  rewrite <- (Hstate i Hlt).
  destruct (Is_Normal_State e i "Execute") eqn:Hn; [|reflexivity].
  rewrite (Hvalue i Hlt Hn). reflexivity.
Qed.

Lemma hamming_weight_reads_only_witness :
  Model_Hamming_Weight.Generate_Traces (Worked.model Worked.ones)
  = Model_Hamming_Weight.Generate_Traces
      {| Model.m_execution := Worked.variant; Model.m_coefficients := Worked.empty |}.
Proof.
  apply (hamming_weight_reads_only (Worked.model Worked.ones)
           {| Model.m_execution := Worked.variant; Model.m_coefficients := Worked.empty |}).
  - reflexivity.
  - intros i Hi. reflexivity.
  - intros i Hi Hn. destruct i as [|[|[|i]]]; [discriminate|reflexivity|reflexivity|].
    cbn in Hi. lia.
Defined.
